(** * create_icon.py: the leaf icon generator

    The script builds a transparent 256x256 RGBA canvas, fills one
    16-vertex polygon with the colour #D94E41 and saves the canvas as a
    multi-resolution ICO file.  The vertex list, the colour string, the
    canvas dimensions, the list of sizes and the order of the library calls
    are taken from the script; the imaging library it calls (Image.new,
    ImageDraw.polygon, Image.save) is not part of the repository and is
    modelled in [Module Imaging] from the description given in the
    specification. *)

From Stdlib Require Import ZArith List Lia QArith Qround Qabs Reals Lra Ascii.
From stdpp Require Import base list strings gmap.

Open Scope Z_scope.

(** ** Plane geometry on the integer lattice *)

Module Geometry.

Definition Point : Type := Z * Z.
Definition Edge : Type := Point * Point.

(** The closed path through [pts]: every vertex is joined to its
    successor and the last vertex back to the first. *)
Definition edges (pts : list Point) : list Edge :=
  zip pts (rotate 1 pts).

(** Twice the signed area of the triangle [a b p]: positive when [p] lies
    to the left of the directed line from [a] to [b]. *)
Definition is_left (a b p : Point) : Z :=
  (b.1 - a.1) * (p.2 - a.2) - (p.1 - a.1) * (b.2 - a.2).

Definition on_segment (p : Point) (e : Edge) : bool :=
  let '(a, b) := e in
  (is_left a b p =? 0)
  && (Z.min a.1 b.1 <=? p.1) && (p.1 <=? Z.max a.1 b.1)
  && (Z.min a.2 b.2 <=? p.2) && (p.2 <=? Z.max a.2 b.2).

Definition on_boundary (pts : list Point) (p : Point) : bool :=
  existsb (on_segment p) (edges pts).

(** Contribution of one edge to the winding number of the path around
    [p]: upward crossings of the horizontal ray through [p] with [p] on
    the left count +1, downward crossings with [p] on the right -1. *)
Definition wn_edge (p : Point) (e : Edge) : Z :=
  let '(a, b) := e in
  if a.2 <=? p.2 then
    if (p.2 <? b.2) && (0 <? is_left a b p) then 1 else 0
  else
    if (b.2 <=? p.2) && (is_left a b p <? 0) then -1 else 0.

Definition winding_number (pts : list Point) (p : Point) : Z :=
  foldr (fun e acc => wn_edge p e + acc) 0 (edges pts).

(** Number of edges crossed by the horizontal ray from [p] to the right
    (the even-odd rule looks at its parity). *)
Definition crosses_ray (p : Point) (e : Edge) : bool :=
  let '(a, b) := e in
  if a.2 <=? p.2 then (p.2 <? b.2) && (0 <? is_left a b p)
  else (b.2 <=? p.2) && (is_left a b p <? 0).

Definition crossing_number (pts : list Point) (p : Point) : nat :=
  length (List.filter (crosses_ray p) (edges pts)).

Definition strictly_inside (pts : list Point) (p : Point) : bool :=
  negb (on_boundary pts p) && negb (winding_number pts p =? 0).

Definition strictly_outside (pts : list Point) (p : Point) : bool :=
  negb (on_boundary pts p) && (winding_number pts p =? 0).

(** Real points of the closed segment between two lattice points. *)
Definition seg_point (e : Edge) (t : R) : R * R :=
  let '((x0, y0), (x1, y1)) := e in
  ((IZR x0 + t * (IZR x1 - IZR x0))%R, (IZR y0 + t * (IZR y1 - IZR y0))%R).

Definition on_edge (e : Edge) (q : R * R) : Prop :=
  exists t : R, (0 <= t <= 1)%R /\ q = seg_point e t.

Definition vertex_R (p : Point) : R * R := (IZR p.1, IZR p.2).

(** A closed path is simple when two edges have a common point only if
    they are consecutive, and then only the vertex they share. *)
Definition simple (pts : list Point) : Prop :=
  forall (i j : nat) (ei ej : Edge) (q : R * R),
    (i < j)%nat ->
    edges pts !! i = Some ei -> edges pts !! j = Some ej ->
    on_edge ei q -> on_edge ej q ->
    (j = S i /\ q = vertex_R ei.2) \/
    (i = 0%nat /\ S j = length pts /\ q = vertex_R ei.1).

End Geometry.

Export Geometry.

(** ** The imaging library called by the script

    None of these functions is defined in the repository: each is modelled
    from what the specification says the library call does.  Only the
    RGBA mode, hexadecimal colour strings and the ICO container are
    covered, which is all the script uses. *)

Module Imaging.

Definition RGBA : Type := Z * Z * Z * Z.

Record Image := mkImage {
  mode : string;
  size : Z * Z;
  rows : list (list RGBA)
}.

(** Modelled from the spec: the raster allocated by [Image.new], "a
    raster of width 256, height 256, pixel format RGBA ... initialized to"
    the given colour; the library's allocator is not in the repository. *)
Definition new_raster (m : string) (sz : Z * Z) (color : RGBA) : Image :=
  mkImage m sz (replicate (Z.to_nat sz.2) (replicate (Z.to_nat sz.1) color)).

(** Modelled from the spec: reading one pixel of a raster, at column
    [xy.1] of row [xy.2]; [None] outside the raster. *)
Definition getpixel (im : Image) (xy : Z * Z) : option RGBA :=
  if (0 <=? xy.1) && (0 <=? xy.2)
  then row ← rows im !! Z.to_nat xy.2; row !! Z.to_nat xy.1
  else None.

(** Modelled from the spec: the value of one hexadecimal digit of a colour
    string. *)
Definition hex_digit (c : ascii) : option Z :=
  let n := Z.of_nat (nat_of_ascii c) in
  if (48 <=? n) && (n <=? 57) then Some (n - 48)
  else if (65 <=? n) && (n <=? 70) then Some (n - 55)
  else if (97 <=? n) && (n <=? 102) then Some (n - 87)
  else None.

(** Modelled from the spec: one 8-bit channel of a colour string, two
    hexadecimal digits. *)
Definition hex_byte (hi lo : ascii) : option Z :=
  h ← hex_digit hi; l ← hex_digit lo; Some (16 * h + l).

(** Modelled from the spec: the library's colour parser, for the form
    the script uses, "a constant solid RGB color (hex D94E41)": a hash
    sign followed by two hexadecimal digits per channel. *)
Definition getrgb (color : string) : option (Z * Z * Z) :=
  match color with
  | String "#"%char (String r1 (String r0 (String g1 (String g0
      (String b1 (String b0 EmptyString)))))) =>
      r ← hex_byte r1 r0; g ← hex_byte g1 g0; b ← hex_byte b1 b0;
      Some (r, g, b)
  | _ => None
  end.

(** *** Scanline polygon fill

    The specification fixes the rule only up to the boundary: the fill is
    "a standard scanline/even-odd or nonzero fill rule" and is to "default
    to whichever rule the chosen drawing primitive provides".  The
    primitive the script calls is the polygon fill of the imaging library,
    and the definitions below follow its rule: an edge is met on every row
    from its upper to its lower end, the lower end counting twice except
    on the last row of the polygon; the ends of a span are rounded to the
    nearest pixel; horizontal edges are drawn as they are. *)

(** Modelled from the spec: the rule of the drawing primitive; a
    horizontal edge takes no part in the crossings. *)
Definition horizontal (e : Edge) : bool := e.1.2 =? e.2.2.

(** Modelled from the spec: the rule of the drawing primitive; an edge is
    met by scanline [y] when [y] lies between its two ordinates, both
    included. *)
Definition active (y : Z) (e : Edge) : bool :=
  let '((_, y0), (_, y1)) := e in
  (Z.min y0 y1 <=? y) && (y <=? Z.max y0 y1).

(** Modelled from the spec: in the scanline fill, the abscissa, as an
    exact fraction, where an active edge meets scanline [y]. *)
Definition crossing (y : Z) (e : Edge) : Q :=
  let '((x0, y0), (x1, y1)) := e in
  (inject_Z x0 + inject_Z ((y - y0) * (x1 - x0)) / inject_Z (y1 - y0))%Q.

(** Modelled from the spec: the rule of the drawing primitive; the last
    row on which the polygon is scanned. *)
Definition poly_ymax (pts : list Point) : Z := foldr Z.max 0 (map snd pts).

(** Modelled from the spec: the rule of the drawing primitive; the
    crossings one edge contributes to scanline [y]: none if it is
    horizontal or not met, its crossing otherwise, twice on the row of its
    lower end unless that is the last row of the polygon. *)
Definition edge_crossings (ymax y : Z) (e : Edge) : list Q :=
  if horizontal e then []
  else if active y e then
    if (y =? Z.max e.1.2 e.2.2) && (y <? ymax)
    then [crossing y e; crossing y e]
    else [crossing y e]
  else [].

(** Modelled from the spec: in the scanline fill, the crossings of a
    scanline are put in increasing order (insertion sort). *)
Fixpoint insert_sorted (q : Q) (l : list Q) : list Q :=
  match l with
  | [] => [q]
  | h :: t => if Qle_bool q h then q :: l else h :: insert_sorted q t
  end.

Definition sort_crossings (l : list Q) : list Q := foldr insert_sorted [] l.

(** Modelled from the spec: the sorted crossings of scanline [y] with the
    closed path through [pts]. *)
Definition crossings (pts : list Point) (y : Z) : list Q :=
  sort_crossings (flat_map (edge_crossings (poly_ymax pts) y) (edges pts)).

(** Modelled from the spec: the rule of the drawing primitive; the left
    end of a span is rounded to the nearest pixel, a half going up (away
    from zero left of the origin). *)
Definition round_up (q : Q) : Z :=
  if Qle_bool 0 q then Qfloor (q + (1 # 2))%Q
  else - Qfloor (Qabs q + (1 # 2))%Q.

(** Modelled from the spec: the rule of the drawing primitive; the right
    end of a span is rounded to the nearest pixel, a half going down
    (towards zero left of the origin). *)
Definition round_down (q : Q) : Z :=
  if Qle_bool 0 q then Qceiling (q - (1 # 2))%Q
  else - Qceiling (Qabs q - (1 # 2))%Q.

(** Modelled from the spec: the even-odd rule of the scanline fill;
    consecutive crossings are paired into spans of pixels, the ends rounded
    to the nearest pixel. *)
Fixpoint spans (xs : list Q) : list (Z * Z) :=
  match xs with
  | a :: b :: rest => (round_up a, round_down b) :: spans rest
  | _ => []
  end.

(** Modelled from the spec: the rule of the drawing primitive; the
    horizontal edges lying on scanline [y], each drawn from end to end. *)
Definition hspans (pts : list Point) (y : Z) : list (Z * Z) :=
  map (fun e : Edge => (Z.min e.1.1 e.2.1, Z.max e.1.1 e.2.1))
      (List.filter (fun e : Edge => horizontal e && (e.1.2 =? y)) (edges pts)).

(** Modelled from the spec: all the spans painted on scanline [y]. *)
Definition row_spans (pts : list Point) (y : Z) : list (Z * Z) :=
  hspans pts y ++ spans (crossings pts y).

Definition in_span (x : Z) (s : Z * Z) : bool := (s.1 <=? x) && (x <=? s.2).

(** Modelled from the spec: painting one span of a row with the ink. *)
Definition hline (ink : RGBA) (row : list RGBA) (s : Z * Z) : list RGBA :=
  imap (fun i p => if in_span (Z.of_nat i) s then ink else p) row.

(** Modelled from the spec: the scanline fill on row [j], all its spans
    painted. *)
Definition fill_row (pts : list Point) (ink : RGBA) (j : nat)
    (row : list RGBA) : list RGBA :=
  foldl (hline ink) row (row_spans pts (Z.of_nat j)).

(** Modelled from the spec: the library's polygon fill, which "fills the
    region enclosed by the ... polygon path with the fixed opaque color,
    using a standard scanline/even-odd ... fill rule", row by row; the
    rasteriser is not in the repository. *)
Definition draw_polygon (pts : list Point) (ink : RGBA) (im : Image) : Image :=
  mkImage (mode im) (size im) (imap (fill_row pts ink) (rows im)).

(** Modelled from the spec: the "stroke/outline" of a polygon, which the
    script does not request: the pixels lying on an edge of the path. *)
Definition draw_outline (pts : list Point) (ink : RGBA) (im : Image) : Image :=
  mkImage (mode im) (size im)
    (imap (fun j row =>
       imap (fun i p =>
         if on_boundary pts (Z.of_nat i, Z.of_nat j) then ink else p) row)
       (rows im)).

(** *** The world the script runs in *)

(** Image objects live in a heap and are handled by reference: the
    drawing context and the script both hold the same image. *)
Definition ImageRef : Type := nat.

Record ImageDraw := mkDraw { draw_im : ImageRef }.

(** One directory entry of an icon container with its embedded image. *)
Record IcoEntry := mkEntry {
  ico_width : Z;
  ico_height : Z;
  ico_image : Image
}.

(** Raster operations carried out by the drawing context: filling the
    interior of a path, stroking its outline. *)
Inductive DrawOp :=
| OpFill (im : ImageRef) (xy : list Point) (ink : RGBA)
| OpStroke (im : ImageRef) (xy : list Point) (ink : RGBA).

Record World := mkWorld {
  heap : list Image;
  files : gmap string (list IcoEntry);
  stdout : list string;
  drawn : list DrawOp
}.

Inductive Exn :=
| ValueError (msg : string)
| InvalidImage (r : ImageRef).

Inductive Result (A : Type) :=
| Ok (a : A) (w : World)
| Raise (e : Exn).
Arguments Ok {A} a w.
Arguments Raise {A} e.

(** Library calls read and update the world, or raise. *)
Definition M (A : Type) : Type := World -> Result A.

#[global] Instance M_ret : MRet M := fun A a w => Ok a w.
#[global] Instance M_bind : MBind M := fun A B f m w =>
  match m w with
  | Ok a w' => f a w'
  | Raise e => Raise e
  end.

Definition raise {A : Type} (e : Exn) : M A := fun _ => Raise e.

(** Modelled from the spec: in-place update of the image a reference
    points to; a reference to no image raises. *)
Definition modify_image (r : ImageRef) (f : Image -> Image) : M unit :=
  fun w =>
    match heap w !! r with
    | Some im => Ok tt (mkWorld (<[r := f im]> (heap w)) (files w) (stdout w) (drawn w))
    | None => Raise (InvalidImage r)
    end.

(** Modelled from the spec: "exactly one polygon is drawn"; so that the
    raster operations of a run can be counted, each one carried out is
    recorded in the world. *)
Definition record_op (op : DrawOp) : M unit :=
  fun w => Ok tt (mkWorld (heap w) (files w) (stdout w) (drawn w ++ [op])).

(** Modelled from the spec: [Image.new(mode, size, color)], "allocates a
    new ... canvas"; the new image is appended to the heap and its
    reference returned. *)
Definition Image_new (m : string) (sz : Z * Z) (color : RGBA) : M ImageRef :=
  fun w =>
    Ok (length (heap w))
       (mkWorld (heap w ++ [new_raster m sz color]) (files w) (stdout w) (drawn w)).

(** Modelled from the spec: [ImageDraw.Draw(im)], a drawing context that
    paints on [im] itself. *)
Definition ImageDraw_Draw (im : ImageRef) : ImageDraw := mkDraw im.

(** Modelled from the spec: the ink of a colour string on an RGBA image,
    "fully opaque". *)
Definition getink (color : string) : M RGBA :=
  match getrgb color with
  | Some (r, g, b) => mret (r, g, b, 255)
  | None => raise (ValueError "unknown color specifier")
  end.

(** Modelled from the spec: [draw.polygon(xy, fill, outline)]: the
    interior is filled when [fill] is given and the outline stroked when
    [outline] is given; an argument left out is [None]. *)
Definition ImageDraw_polygon (draw : ImageDraw) (xy : list Point)
    (fill outline : option string) : M unit :=
  match fill with
  | Some c =>
      ink ← getink c;
      modify_image (draw_im draw) (draw_polygon xy ink);;
      record_op (OpFill (draw_im draw) xy ink)
  | None => mret tt
  end;;
  match outline with
  | Some c =>
      ink ← getink c;
      modify_image (draw_im draw) (draw_outline xy ink);;
      record_op (OpStroke (draw_im draw) xy ink)
  | None => mret tt
  end.

(** Modelled from the spec: [print], one line on standard output. *)
Definition print (line : string) : M unit :=
  fun w => Ok tt (mkWorld (heap w) (files w) (stdout w ++ [line]) (drawn w)).

Section Codec.

(** The resampling filter of the icon encoder.  The specification
    leaves it open ("standard image resampling (e.g., area or bilinear
    filtering)"), so it is a parameter of the model. *)
Variable resample : Image -> Z * Z -> Image.

(** Modelled from the spec: the entries written for the requested
    sizes, "resampled copies at sizes {256,128,64,48,32,16}, each
    produced by standard image resampling from the 256x256 source". *)
Definition ico_entries (im : Image) (sizes : list (Z * Z)) : list IcoEntry :=
  map (fun s => mkEntry s.1 s.2 (resample im s)) sizes.

(** Modelled from the spec: [im.save(path, format, sizes)], which
    "writes the artifact to a fixed output path", replacing what was
    there. *)
Definition Image_save (r : ImageRef) (path fmt : string)
    (sizes : list (Z * Z)) : M unit :=
  fun w =>
    match heap w !! r with
    | Some im =>
        if decide (fmt = "ICO") then
          Ok tt (mkWorld (heap w) (<[path := ico_entries im sizes]> (files w))
                         (stdout w) (drawn w))
        else Raise (ValueError "unknown file format")
    | None => Raise (InvalidImage r)
    end.

End Codec.

(** Modelled from the spec: nearest-neighbour resampling, one "standard
    image resampling" filter, used to instantiate the parameter of the
    encoder. *)
Definition resample_nearest (im : Image) (sz : Z * Z) : Image :=
  mkImage (mode im) sz
    (map (fun j =>
       map (fun i =>
         default (0, 0, 0, 0)
           (getpixel im (i * (size im).1 / sz.1, j * (size im).2 / sz.2)))
         (seqZ 0 sz.1))
       (seqZ 0 sz.2)).

End Imaging.

Export Imaging.

(** ** The script's constants *)

(** [points] in [create_icon] (a simplified stylized leaf shape). *)
Definition points : list Point :=
  [ (128, 20);    (* Top tip *)
    (150, 80);
    (210, 60);    (* Right top tip *)
    (170, 110);
    (220, 160);   (* Right mid tip *)
    (150, 160);
    (160, 240);   (* Stem bottom *)
    (140, 240);   (* Stem bottom width *)
    (128, 200);   (* Stem top *)
    (116, 240);
    (96, 240);    (* Stem *)
    (106, 160);
    (36, 160);    (* Left mid tip *)
    (86, 110);
    (46, 60);     (* Left top tip *)
    (106, 80) ].


(** ** The script *)

Section Script.

Variable resample : Image -> Z * Z -> Image.

(** [create_icon()] of create_icon.py. *)
Definition create_icon : M unit :=
  (* Create a 256x256 image with transparent background *)
  img ← Image_new "RGBA" (256, 256) (0, 0, 0, 0);
  let draw := ImageDraw_Draw img in
  let '(center_x, center_y) := (128, 128) in
  ImageDraw_polygon draw points (Some "#D94E41") None;;
  (* Save as ICO *)
  Image_save resample img "logo.ico" "ICO"
    [(256, 256); (128, 128); (64, 64); (48, 48); (32, 32); (16, 16)];;
  print "logo.ico created successfully.".

(** The worlds a run of [create_icon] goes through, statement by
    statement: [w] at the start, [w1] once the canvas is built, [w2] once
    the polygon is drawn, [w3] once the file is written, [w4] at the
    end. *)
Definition run_through (w : World) (img : ImageRef)
    (w1 w2 w3 w4 : World) : Prop :=
  Image_new "RGBA" (256, 256) (0, 0, 0, 0) w = Ok img w1 /\
  ImageDraw_polygon (ImageDraw_Draw img) points (Some "#D94E41") None w1
    = Ok tt w2 /\
  Image_save resample img "logo.ico" "ICO"
    [(256, 256); (128, 128); (64, 64); (48, 48); (32, 32); (16, 16)] w2
    = Ok tt w3 /\
  print "logo.ico created successfully." w3 = Ok tt w4 /\
  create_icon w = Ok tt w4.

End Script.

(** ** Decision procedures used in the proofs *)

(** The pixels of row [y] painted by the scanline fill of [pts]. *)
Definition covered (pts : list Point) (xy : Z * Z) : bool :=
  existsb (in_span xy.1) (row_spans pts xy.2).

(** At lattice point [(i, j)], with [sp] the spans of scanline [j]: the
    fill covers the point if it is strictly inside the polygon; if it
    covers a point strictly outside, then one of the two neighbours of the
    point in its row is not strictly outside; and the non-zero and
    even-odd rules agree there. *)
Definition pixel_ok (sp : list (Z * Z)) (j i : Z) : bool :=
  let c := existsb (in_span i) sp in
  let b := on_boundary points (i, j) in
  let z := winding_number points (i, j) =? 0 in
  implb (negb b && negb z) c
  && (if negb b && z && c
      then negb (strictly_outside points (i - 1, j))
           || negb (strictly_outside points (i + 1, j))
      else true)
  && Bool.eqb (Nat.odd (crossing_number points (i, j))) (negb z).

(** Lattice points [(i, j)] and [(256 - i, j)] agree on being on the
    boundary of the polygon, strictly inside it, and covered by the fill. *)
Definition pixel_symmetric (sp : list (Z * Z)) (j i : Z) : bool :=
  let b := on_boundary points (i, j) in
  let b' := on_boundary points (256 - i, j) in
  Bool.eqb b' b
  && Bool.eqb (negb b' && negb (winding_number points (256 - i, j) =? 0))
              (negb b && negb (winding_number points (i, j) =? 0))
  && Bool.eqb (existsb (in_span (256 - i)) sp) (existsb (in_span i) sp).

(** At lattice point [(i, j)], with [sp] the spans of scanline [j]: the
    fill covers the point only if it lies in columns 36 to 220 and rows 20
    to 240. *)
Definition pixel_in_box (sp : list (Z * Z)) (j i : Z) : bool :=
  implb (existsb (in_span i) sp)
        ((36 <=? i) && (i <=? 220) && (20 <=? j) && (j <=? 240)).

(** The lattice points of the 256x256 canvas, row by row, and those the
    fill of the polygon covers. *)
Definition canvas_points : list (Z * Z) :=
  flat_map (fun j => map (fun i => (i, j)) (seqZ 0 256)) (seqZ 0 256).

Definition painted_points : list (Z * Z) :=
  List.filter (covered points) canvas_points.

(** The canvas as [create_icon] allocates it, and as it is once the
    polygon is filled. *)
Definition blank_canvas : Image := new_raster "RGBA" (256, 256) (0, 0, 0, 0).

Definition leaf_canvas : Image := draw_polygon points (217, 78, 65, 255) blank_canvas.

(** A world with no image, no file and no output. *)
Definition empty_world : World := mkWorld [] ∅ [] [].

(** A world that already holds an image, a file and a line of output. *)
Definition used_world : World :=
  mkWorld [new_raster "RGBA" (2, 2) (1, 2, 3, 4)]
          {["other.ico" := []]}
          ["earlier line"]
          [].

(** * Properties *)

(** ** The model on small inputs *)

Example getrgb_lowercase : getrgb "#d94e41" = Some (217, 78, 65).
Proof. reflexivity. Qed.

Example getrgb_no_hash : getrgb "D94E41" = None.
Proof. reflexivity. Qed.

Example getink_bad (w : World) :
  getink "red" w = Raise (ValueError "unknown color specifier").
Proof. reflexivity. Qed.

(** A square filled on a 5x5 raster: rows 1 to 3 are painted from column 1
    to column 3, its edges included. *)
Example fill_square :
  rows (draw_polygon [(1, 1); (3, 1); (3, 3); (1, 3)] (9, 9, 9, 255)
          (new_raster "RGBA" (5, 5) (0, 0, 0, 0)))
  = let o := (0, 0, 0, 0) in
    let i := (9, 9, 9, 255) in
    [ [o; o; o; o; o];
      [o; i; i; i; o];
      [o; i; i; i; o];
      [o; i; i; i; o];
      [o; o; o; o; o] ].
Proof. reflexivity. Qed.

(** Scanline 100 crosses the leaf once, scanline 220 crosses the two legs
    of the stem below its notch. *)
Example spans_row_100 : row_spans points 100 = [(78, 178)].
Proof. reflexivity. Qed.

Example spans_row_220 : row_spans points 220 = [(99, 122); (134, 157)].
Proof. reflexivity. Qed.

(** The ends of a span go to the nearest pixel: on scanline 22 the edges
    are crossed at 127 4/15 and 128 11/15, and columns 127 to 129 are
    painted. *)
Example crossings_row_22 : crossings points 22 = [(7636 # 60)%Q; (7724 # 60)%Q].
Proof. reflexivity. Qed.

Example spans_row_22 : row_spans points 22 = [(127, 129)].
Proof. reflexivity. Qed.

(** A half goes up at the left end of a span and down at its right end. *)
Example round_up_half : round_up (5 # 2) = 3 /\ round_down (5 # 2) = 2.
Proof. split; reflexivity. Qed.

(** Scanline 160 holds two horizontal edges, drawn from end to end, and the
    lower ends of the two side lobes, whose crossings count twice. *)
Example hspans_row_160 : hspans points 160 = [(150, 220); (36, 106)].
Proof. reflexivity. Qed.

Example covered_row_160 :
  forallb (fun x => covered points (x, 160)) (seqZ 36 185) = true
  /\ covered points (35, 160) = false /\ covered points (221, 160) = false.
Proof. repeat split; reflexivity. Qed.

(** The fill paints 16354 pixels of the canvas, 187 of them strictly
    outside the polygon, and every lattice point on its boundary. *)
Example painted_count : length painted_points = 16354%nat.
Proof. vm_compute. reflexivity. Qed.

Example painted_outside_count :
  length (List.filter (strictly_outside points) painted_points) = 187%nat.
Proof. vm_compute. reflexivity. Qed.

Example boundary_painted :
  forallb (fun p => implb (on_boundary points p) (covered points p)) canvas_points
  = true.
Proof. vm_compute. reflexivity. Qed.

(** The last row of the polygon, row 240, is painted along the two feet of
    the stem. *)
Example spans_row_240 :
  forallb (fun x => Bool.eqb (covered points (x, 240))
                             ((96 <=? x) && (x <=? 116) || (140 <=? x) && (x <=? 160)))
          (seqZ 0 256) = true.
Proof. reflexivity. Qed.

Example polygon_without_image :
  ImageDraw_polygon (ImageDraw_Draw 0%nat) points (Some "#D94E41") None empty_world
  = Raise (InvalidImage 0%nat).
Proof. reflexivity. Qed.

Example edges_points_first : edges points !! 0%nat = Some ((128, 20), (150, 80)).
Proof. reflexivity. Qed.

Example edges_points_last : edges points !! 15%nat = Some ((106, 80), (128, 20)).
Proof. reflexivity. Qed.

Example wn_center : winding_number points (128, 128) = 1.
Proof. reflexivity. Qed.

Lemma points_simple : simple points.
Proof.
  intros i j ei ej q Hij Hi Hj [t [Ht Hq]] [s [Hs Hq']].
  assert (Hj16 : (j < 16)%nat).
  { apply lookup_lt_Some in Hj. exact Hj. }
  subst q.
  repeat (destruct i as [|i]; [ | try lia ]);
  repeat (destruct j as [|j]; [ | try lia ]); try lia;
  cbv in Hi, Hj; injection Hi as <-; injection Hj as <-;
  unfold seg_point in Hq' |- *; unfold vertex_R; cbn [fst snd];
  injection Hq' as Hx Hy;
  first
    [ exfalso; lra
    | left; split; [reflexivity | f_equal; lra]
    | right; split; [reflexivity | split; [reflexivity | f_equal; lra]] ].
Qed.

(** ** The raster primitives *)

Lemma forallb_seqZ (f : Z -> bool) (m n k : Z) :
  forallb f (seqZ m n) = true -> m <= k < m + n -> f k = true.
Proof.
  intros Hall Hk. rewrite forallb_forall in Hall. apply Hall.
  apply list_elem_of_In, elem_of_seqZ. exact Hk.
Qed.

Lemma getpixel_new_raster (m : string) (wd ht : Z) (c : RGBA) (x y : Z) :
  0 <= x < wd -> 0 <= y < ht ->
  getpixel (new_raster m (wd, ht) c) (x, y) = Some c.
Proof.
  intros Hx Hy. unfold getpixel, new_raster. cbn [fst snd rows].
  replace (0 <=? x) with true by (symmetry; apply Z.leb_le; lia).
  replace (0 <=? y) with true by (symmetry; apply Z.leb_le; lia).
  cbn [andb]. rewrite lookup_replicate_2 by lia. cbn.
  apply lookup_replicate_2. lia.
Qed.

Lemma getpixel_new_raster_outside (m : string) (wd ht : Z) (c : RGBA) (x y : Z) :
  ~ (0 <= x < wd /\ 0 <= y < ht) ->
  getpixel (new_raster m (wd, ht) c) (x, y) = None.
Proof.
  intros Hout. unfold getpixel, new_raster. cbn [fst snd rows].
  destruct (Z.leb_spec 0 x); cbn [andb]; [ | reflexivity].
  destruct (Z.leb_spec 0 y); cbn [andb]; [ | reflexivity].
  destruct (decide (y < ht)) as [Hy | Hy].
  - rewrite lookup_replicate_2 by lia. cbn.
    apply lookup_replicate_None. lia.
  - replace (replicate (Z.to_nat ht) (replicate (Z.to_nat wd) c) !! Z.to_nat y)
      with (@None (list RGBA)); [reflexivity | ].
    symmetry. apply lookup_replicate_None. lia.
Qed.

Lemma lookup_foldl_hline (ink : RGBA) (sps : list (Z * Z)) (row : list RGBA) (i : nat) :
  foldl (hline ink) row sps !! i
  = (fun p => if existsb (in_span (Z.of_nat i)) sps then ink else p) <$> row !! i.
Proof.
  revert row. induction sps as [| s sps IH]; intros row; cbn [foldl existsb].
  - destruct (row !! i); reflexivity.
  - rewrite IH. unfold hline at 1. rewrite list_lookup_imap.
    destruct (row !! i) as [p |]; cbn; [ | reflexivity].
    destruct (in_span (Z.of_nat i) s); cbn.
    + destruct (existsb (in_span (Z.of_nat i)) sps); reflexivity.
    + reflexivity.
Qed.

(** A pixel of the raster after the fill: the ink where the scanline
    spans cover it, the old pixel elsewhere. *)
Lemma getpixel_draw_polygon (pts : list Point) (ink : RGBA) (im : Image) (x y : Z) :
  getpixel (draw_polygon pts ink im) (x, y)
  = (fun p => if 0 <=? x then if 0 <=? y then  if covered pts (x, y) then ink else p else p else p)
      <$> getpixel im (x, y).
Proof.
  unfold getpixel, draw_polygon, covered. cbn [fst snd rows].
  destruct (Z.leb_spec 0 x) as [Hx | Hx]; cbn [andb]; [ | reflexivity].
  destruct (Z.leb_spec 0 y) as [Hy | Hy]; cbn [andb]; [ | reflexivity].
  rewrite list_lookup_imap.
  destruct (rows im !! Z.to_nat y) as [row |]; cbn; [ | reflexivity].
  unfold fill_row. rewrite lookup_foldl_hline.
  rewrite !Z2Nat.id by lia. reflexivity.
Qed.

Lemma raster_ok :
  forallb (fun j => forallb (pixel_ok (row_spans points j) j) (seqZ 0 256))
          (seqZ 0 256) = true.
Proof. vm_compute. reflexivity. Qed.

Lemma raster_symmetric :
  forallb (fun j => forallb (pixel_symmetric (row_spans points j) j) (seqZ 0 129))
          (seqZ 0 256) = true.
Proof. vm_compute. reflexivity. Qed.

Lemma pixel_ok_at (x y : Z) :
  0 <= x < 256 -> 0 <= y < 256 ->
  pixel_ok (row_spans points y) y x = true.
Proof.
  intros Hx Hy.
  pose proof (forallb_seqZ _ 0 256 y raster_ok ltac:(lia)) as Hrow.
  cbv beta in Hrow.
  exact (forallb_seqZ _ 0 256 x Hrow ltac:(lia)).
Qed.

Lemma inside_covered (x y : Z) :
  0 <= x < 256 -> 0 <= y < 256 ->
  strictly_inside points (x, y) = true -> covered points (x, y) = true.
Proof.
  intros Hx Hy Hin. pose proof (pixel_ok_at x y Hx Hy) as Hpix.
  unfold pixel_ok in Hpix. unfold strictly_inside in Hin. unfold covered.
  cbn [fst snd]. apply andb_prop in Hpix as [Hpix _].
  apply andb_prop in Hpix as [Hpix _].
  rewrite Hin in Hpix. exact Hpix.
Qed.

(** A point strictly outside the polygon whose two neighbours in its row
    are strictly outside too is not covered by the fill. *)
Lemma outside_not_covered (x y : Z) :
  0 <= x < 256 -> 0 <= y < 256 ->
  strictly_outside points (x, y) = true ->
  strictly_outside points (x - 1, y) = true ->
  strictly_outside points (x + 1, y) = true ->
  covered points (x, y) = false.
Proof.
  intros Hx Hy Hout Hleft Hright. pose proof (pixel_ok_at x y Hx Hy) as Hpix.
  unfold pixel_ok in Hpix. unfold strictly_outside in Hout. unfold covered.
  cbn [fst snd]. apply andb_prop in Hpix as [Hpix _].
  apply andb_prop in Hpix as [_ Hpix].
  rewrite Hout in Hpix. cbn [andb] in Hpix.
  destruct (existsb (in_span x) (row_spans points y)); [ | reflexivity].
  rewrite Hleft, Hright in Hpix. discriminate.
Qed.

(** On the canvas the non-zero and the even-odd fill rules select the same
    lattice points: the choice of rule does not matter for this polygon. *)
Lemma fill_rules_agree (x y : Z) :
  0 <= x < 256 -> 0 <= y < 256 ->
  Nat.odd (crossing_number points (x, y)) = negb (winding_number points (x, y) =? 0).
Proof.
  intros Hx Hy. pose proof (pixel_ok_at x y Hx Hy) as Hpix.
  unfold pixel_ok in Hpix. apply andb_prop in Hpix as [_ Hpix].
  apply Bool.eqb_prop in Hpix. exact Hpix.
Qed.

(** Columns [x] and [256 - x] of a row agree, for [x] up to 128. *)
Lemma symmetric_half (x y : Z) :
  0 <= x <= 128 -> 0 <= y < 256 ->
  on_boundary points (256 - x, y) = on_boundary points (x, y)
  /\ strictly_inside points (256 - x, y) = strictly_inside points (x, y)
  /\ covered points (256 - x, y) = covered points (x, y).
Proof.
  intros Hx Hy.
  pose proof (forallb_seqZ _ 0 256 y raster_symmetric ltac:(lia)) as Hrow.
  cbv beta in Hrow.
  pose proof (forallb_seqZ _ 0 129 x Hrow ltac:(lia)) as Hpix.
  unfold pixel_symmetric in Hpix. unfold strictly_inside, covered. cbn [fst snd].
  apply andb_prop in Hpix as [Hpix Hc]. apply andb_prop in Hpix as [Hb Hz].
  apply Bool.eqb_prop in Hb, Hz, Hc. auto.
Qed.

Lemma symmetric_row (x y : Z) :
  0 <= x <= 256 -> 0 <= y < 256 ->
  on_boundary points (256 - x, y) = on_boundary points (x, y)
  /\ strictly_inside points (256 - x, y) = strictly_inside points (x, y)
  /\ strictly_outside points (256 - x, y) = strictly_outside points (x, y)
  /\ covered points (256 - x, y) = covered points (x, y).
Proof.
  intros Hx Hy.
  assert (Hsym : on_boundary points (256 - x, y) = on_boundary points (x, y)
                 /\ strictly_inside points (256 - x, y) = strictly_inside points (x, y)
                 /\ covered points (256 - x, y) = covered points (x, y)).
  { destruct (decide (x <= 128)) as [Hle | Hgt].
    - apply symmetric_half; lia.
    - destruct (symmetric_half (256 - x) y ltac:(lia) Hy) as (Hb & Hz & Hc).
      replace (256 - (256 - x)) with x in Hb, Hz, Hc by lia. auto. }
  destruct Hsym as (Hb & Hi & Hc). repeat split; try assumption.
  unfold strictly_inside, strictly_outside in *. rewrite Hb in *.
  destruct (on_boundary points (x, y)); cbn [negb andb] in *; [reflexivity | ].
  destruct (winding_number points (256 - x, y) =? 0),
    (winding_number points (x, y) =? 0); cbn in Hi |- *; congruence.
Qed.

(** ** Pixels of the two canvases *)

Lemma getpixel_blank (x y : Z) :
  0 <= x < 256 -> 0 <= y < 256 -> getpixel blank_canvas (x, y) = Some (0, 0, 0, 0).
Proof. apply getpixel_new_raster. Qed.

Lemma getpixel_leaf (x y : Z) :
  0 <= x < 256 -> 0 <= y < 256 ->
  getpixel leaf_canvas (x, y)
  = Some (if covered points (x, y) then (217, 78, 65, 255) else (0, 0, 0, 0)).
Proof.
  intros Hx Hy. unfold leaf_canvas.
  rewrite getpixel_draw_polygon, getpixel_blank by assumption.
  replace (0 <=? x) with true by (symmetry; apply Z.leb_le; lia).
  replace (0 <=? y) with true by (symmetry; apply Z.leb_le; lia).
  reflexivity.
Qed.

Lemma getpixel_leaf_outside (x y : Z) :
  ~ (0 <= x < 256 /\ 0 <= y < 256) -> getpixel leaf_canvas (x, y) = None.
Proof.
  intros Hout. unfold leaf_canvas, blank_canvas.
  rewrite getpixel_draw_polygon, getpixel_new_raster_outside by assumption.
  reflexivity.
Qed.

Lemma getrgb_fill : getrgb "#D94E41" = Some (217, 78, 65).
Proof. reflexivity. Qed.

(** ** The library calls, one step each *)

Lemma modify_image_step (w : World) (r : ImageRef) (im : Image) (f : Image -> Image) :
  heap w !! r = Some im ->
  modify_image r f w = Ok tt (mkWorld (<[r := f im]> (heap w)) (files w) (stdout w) (drawn w)).
Proof. intros Him. unfold modify_image. rewrite Him. reflexivity. Qed.

Lemma polygon_fill_step (w : World) (r : ImageRef) (im : Image)
    (xy : list Point) (c : string) (red green blue : Z) :
  heap w !! r = Some im ->
  getrgb c = Some (red, green, blue) ->
  ImageDraw_polygon (mkDraw r) xy (Some c) None w
  = Ok tt (mkWorld (<[r := draw_polygon xy (red, green, blue, 255) im]> (heap w))
                   (files w) (stdout w)
                   (drawn w ++ [OpFill r xy (red, green, blue, 255)])).
Proof.
  intros Him Hrgb.
  unfold ImageDraw_polygon, getink, mbind, M_bind, mret, M_ret. rewrite Hrgb.
  cbn [draw_im]. rewrite (modify_image_step w r im) by exact Him.
  reflexivity.
Qed.

Lemma Image_save_step (resample : Image -> Z * Z -> Image) (w : World)
    (r : ImageRef) (im : Image) (path : string) (sizes : list (Z * Z)) :
  heap w !! r = Some im ->
  Image_save resample r path "ICO" sizes w
  = Ok tt (mkWorld (heap w) (<[path := ico_entries resample im sizes]> (files w))
                   (stdout w) (drawn w)).
Proof. intros Him. unfold Image_save. rewrite Him. reflexivity. Qed.

Lemma lookup_new_image (l : list Image) (im : Image) :
  (l ++ [im]) !! length l = Some im.
Proof. apply list_lookup_middle. reflexivity. Qed.

Lemma insert_new_image (l : list Image) (im im' : Image) :
  <[length l := im']> (l ++ [im]) = l ++ [im'].
Proof.
  rewrite insert_app_r_alt by lia. rewrite Nat.sub_diag. reflexivity.
Qed.

Section Runs.

Variable resample : Image -> Z * Z -> Image.

Let sizes : list (Z * Z) :=
  [(256, 256); (128, 128); (64, 64); (48, 48); (32, 32); (16, 16)].

(** Every run of the script succeeds, and goes through these worlds. *)
Lemma create_icon_runs (w : World) :
  run_through resample w (length (heap w))
    (mkWorld (heap w ++ [blank_canvas]) (files w) (stdout w) (drawn w))
    (mkWorld (heap w ++ [leaf_canvas]) (files w) (stdout w)
             (drawn w ++ [OpFill (length (heap w)) points (217, 78, 65, 255)]))
    (mkWorld (heap w ++ [leaf_canvas])
             (<["logo.ico" := ico_entries resample leaf_canvas sizes]> (files w))
             (stdout w)
             (drawn w ++ [OpFill (length (heap w)) points (217, 78, 65, 255)]))
    (mkWorld (heap w ++ [leaf_canvas])
             (<["logo.ico" := ico_entries resample leaf_canvas sizes]> (files w))
             (stdout w ++ ["logo.ico created successfully."])
             (drawn w ++ [OpFill (length (heap w)) points (217, 78, 65, 255)])).
Proof.
  assert (Hnew : Image_new "RGBA" (256, 256) (0, 0, 0, 0) w
                 = Ok (length (heap w))
                      (mkWorld (heap w ++ [blank_canvas]) (files w) (stdout w) (drawn w)))
    by reflexivity.
  assert (Hpoly :
    ImageDraw_polygon (ImageDraw_Draw (length (heap w))) points (Some "#D94E41") None
      (mkWorld (heap w ++ [blank_canvas]) (files w) (stdout w) (drawn w))
    = Ok tt (mkWorld (heap w ++ [leaf_canvas]) (files w) (stdout w)
               (drawn w ++ [OpFill (length (heap w)) points (217, 78, 65, 255)]))).
  { unfold ImageDraw_Draw.
    rewrite (polygon_fill_step _ _ blank_canvas _ _ 217 78 65);
      [ | apply lookup_new_image | exact getrgb_fill ].
    cbn [heap files stdout drawn]. rewrite insert_new_image. reflexivity. }
  assert (Hsave :
    Image_save resample (length (heap w)) "logo.ico" "ICO" sizes
      (mkWorld (heap w ++ [leaf_canvas]) (files w) (stdout w)
         (drawn w ++ [OpFill (length (heap w)) points (217, 78, 65, 255)]))
    = Ok tt (mkWorld (heap w ++ [leaf_canvas])
               (<["logo.ico" := ico_entries resample leaf_canvas sizes]> (files w))
               (stdout w)
               (drawn w ++ [OpFill (length (heap w)) points (217, 78, 65, 255)]))).
  { rewrite (Image_save_step _ _ _ leaf_canvas); [reflexivity | ].
    apply lookup_new_image. }
  unfold run_through. split; [exact Hnew | ]. split; [exact Hpoly | ].
  split; [exact Hsave | ]. split; [reflexivity | ].
  subst sizes. cbv beta iota delta [create_icon mbind M_bind].
  rewrite Hnew. cbv beta iota zeta. rewrite Hpoly. cbv beta iota.
  rewrite Hsave. reflexivity.
Qed.

(** The script never raises. *)
Lemma create_icon_succeeds (w : World) :
  exists w' : World, create_icon resample w = Ok tt w'.
Proof.
  destruct (create_icon_runs w) as (_ & _ & _ & _ & Hrun). eauto.
Qed.

End Runs.

(** Opens a goal about the worlds of a run with the worlds computed by
    [create_icon_runs], and looks up the canvas after the fill. *)
Ltac run_to_leaf :=
  eexists _, _, _, _, _, leaf_canvas;
  split; [apply create_icon_runs | ]; cbn [heap drawn files stdout];
  split; [apply lookup_new_image | ].

(** ** The properties of the specification *)

Section Claims.

Variable resample : Image -> Z * Z -> Image.


(** C2 (size invariant).  With a resampling filter that returns an image
    of the size asked for, the file a run of [create_icon] leaves at
    logo.ico holds exactly 6 embedded images, each as wide as it is high,
    and their side lengths are 256, 128, 64, 48, 32 and 16, each once. *)
Theorem size_invariant
    (resample_size : forall (im : Image) (sz : Z * Z), size (resample im sz) = sz)
    (w : World) :
  exists (w' : World) (f : list IcoEntry),
    create_icon resample w = Ok tt w' /\
    files w' !! "logo.ico" = Some f /\
    length f = 6%nat /\
    Forall (fun e => ico_width e = ico_height e
                     /\ size (ico_image e) = (ico_width e, ico_height e)) f /\
    NoDup (map ico_width f) /\
    map ico_width f ≡ₚ [256; 128; 64; 48; 32; 16].
Proof.
  destruct (create_icon_runs resample w) as (_ & _ & _ & _ & Hrun).
  eexists _, _. split; [exact Hrun | ]. cbn [files].
  split; [apply lookup_insert_eq | ].
  unfold ico_entries. cbn [map length ico_width fst].
  split; [reflexivity | ]. split.
  - repeat (constructor; [cbn; split; [reflexivity | apply resample_size] | ]).
    constructor.
  - split; [ | reflexivity].
    repeat (constructor; [rewrite ?elem_of_cons, elem_of_nil; lia | ]).
    constructor.
Qed.

(** C3 (determinism).  In two successive runs of [create_icon], the
    second started in the world the first one left, the canvases present
    when the encoder is called are the same 256x256 raster. *)
Theorem determinism (w : World) :
  exists (img img' : ImageRef) (u1 u2 u3 v1 v2 v3 w' w'' : World) (canvas : Image),
    run_through resample w img u1 u2 u3 w' /\
    run_through resample w' img' v1 v2 v3 w'' /\
    heap u2 !! img = Some canvas /\
    heap v2 !! img' = Some canvas /\
    size canvas = (256, 256).
Proof.
  pose proof (create_icon_runs resample w) as Hfirst.
  eexists _, _, _, _, _, _, _, _, _, _, leaf_canvas.
  split; [exact Hfirst | ].
  split; [apply create_icon_runs | ]. cbn [heap].
  split; [apply lookup_new_image | ].
  split; [apply lookup_new_image | reflexivity].
Qed.

(** C4 (center pixel).  The point (128,128) is strictly inside the
    polygon, and once the polygon is filled the pixel there is
    (217,78,65,255): the colour #D94E41 with alpha 255. *)
Theorem center_pixel (w : World) :
  strictly_inside points (128, 128) = true /\
  getrgb "#D94E41" = Some (217, 78, 65) /\
  exists (img : ImageRef) (w1 w2 w3 w4 : World) (after : Image),
    run_through resample w img w1 w2 w3 w4 /\
    heap w2 !! img = Some after /\
    getpixel after (128, 128) = Some (217, 78, 65, 255).
Proof.
  split; [reflexivity | ]. split; [exact getrgb_fill | ].
  run_to_leaf.
  rewrite getpixel_leaf by lia.
  rewrite inside_covered by (lia || reflexivity). reflexivity.
Qed.

(** C5 (corner pixel).  The point (0,0) is strictly outside the polygon,
    and once the polygon is filled the pixel there is still
    (0,0,0,0). *)
Theorem corner_pixel (w : World) :
  strictly_outside points (0, 0) = true /\
  exists (img : ImageRef) (w1 w2 w3 w4 : World) (after : Image),
    run_through resample w img w1 w2 w3 w4 /\
    heap w2 !! img = Some after /\
    getpixel after (0, 0) = Some (0, 0, 0, 0).
Proof.
  split; [reflexivity | ].
  run_to_leaf.
  rewrite getpixel_leaf by lia.
  rewrite outside_not_covered by (lia || reflexivity). reflexivity.
Qed.

(** C6 (idempotence).  Two runs of [create_icon] in a row, the second
    overwriting logo.ico, leave the same file there: the same six
    entries, of sizes 256, 128, 64, 48, 32 and 16, each with the same
    embedded image in both files. *)
Theorem idempotence (w : World) :
  exists (w' w'' : World) (f f' : list IcoEntry),
    create_icon resample w = Ok tt w' /\
    create_icon resample w' = Ok tt w'' /\
    files w' !! "logo.ico" = Some f /\
    files w'' !! "logo.ico" = Some f' /\
    map (fun e => (ico_width e, ico_height e)) f
      = [(256, 256); (128, 128); (64, 64); (48, 48); (32, 32); (16, 16)] /\
    map (fun e => (ico_width e, ico_height e)) f'
      = [(256, 256); (128, 128); (64, 64); (48, 48); (32, 32); (16, 16)] /\
    map ico_image f = map ico_image f'.
Proof.
  destruct (create_icon_runs resample w) as (_ & _ & _ & _ & Hfirst).
  eexists _, _, _, _. split; [exact Hfirst | ].
  split; [apply create_icon_runs | ]. cbn [files].
  split; [apply lookup_insert_eq | ]. split; [apply lookup_insert_eq | ].
  split; [reflexivity | ]. split; reflexivity.
Qed.

(** C7 (polygon invariants).  The vertex list has exactly 16 points,
    both coordinates of every vertex lie between 0 and 256, and a run of
    [create_icon] performs exactly one raster operation, a polygon fill
    of that vertex list. *)
Theorem polygon_invariants (w : World) :
  length points = 16%nat /\
  Forall (fun p => 0 <= p.1 <= 256 /\ 0 <= p.2 <= 256) points /\
  exists (w' : World) (img : ImageRef) (ink : RGBA),
    create_icon resample w = Ok tt w' /\
    drawn w' = drawn w ++ [OpFill img points ink].
Proof.
  split; [reflexivity | ]. split.
  - repeat (constructor; [cbn; lia | ]). constructor.
  - destruct (create_icon_runs resample w) as (_ & _ & _ & _ & Hrun).
    eexists _, _, _. split; [exact Hrun | reflexivity].
Qed.


(** C10 (mirror symmetry).  With every vertex (x, y) the list holds the
    vertex (256 - x, y), and with every edge the path holds its mirror
    image, traversed the other way; the region enclosed by the polygon and
    its boundary are their own mirror images in the line x = 128, and so is
    the shape painted on the canvas: column [x] equals column
    [256 - x]. *)
Theorem mirror_symmetry (w : World) :
  (forall x y : Z, (x, y) ∈ points -> (256 - x, y) ∈ points) /\
  (forall a b : Point,
     (a, b) ∈ edges points ->
     ((256 - b.1, b.2), (256 - a.1, a.2)) ∈ edges points) /\
  (forall x y : Z,
     0 <= x <= 256 -> 0 <= y < 256 ->
     on_boundary points (256 - x, y) = on_boundary points (x, y) /\
     strictly_inside points (256 - x, y) = strictly_inside points (x, y) /\
     strictly_outside points (256 - x, y) = strictly_outside points (x, y)) /\
  exists (img : ImageRef) (w1 w2 w3 w4 : World) (after : Image),
    run_through resample w img w1 w2 w3 w4 /\
    heap w2 !! img = Some after /\
    forall x y : Z,
      0 < x < 256 -> 0 <= y < 256 ->
      getpixel after (256 - x, y) = getpixel after (x, y).
Proof.
  split; [ | split; [ | split]].
  - intros x y Hin. unfold points in Hin.
    repeat (apply elem_of_cons in Hin as [Hin | Hin];
            [ injection Hin as -> ->; apply list_elem_of_In; vm_compute;
              repeat (first [left; reflexivity | right]) | ]).
    apply elem_of_nil in Hin. contradiction.
  - intros a b Hin.
    let l := eval vm_compute in (edges points) in
      change (edges points) with l in Hin.
    repeat (apply elem_of_cons in Hin as [Hin | Hin];
            [ injection Hin as -> ->; apply list_elem_of_In; vm_compute;
              repeat (first [left; reflexivity | right]) | ]).
    apply elem_of_nil in Hin. contradiction.
  - intros x y Hx Hy.
    destruct (symmetric_row x y Hx Hy) as (Hb & Hi & Ho & _). auto.
  - run_to_leaf.
    intros x y Hx Hy. rewrite !getpixel_leaf by lia.
    destruct (symmetric_row x y ltac:(lia) Hy) as (_ & _ & _ & ->).
    reflexivity.
Qed.

End Claims.

(** C8 (simple path).  Two edges of the closed path through the 16
    vertices that have a point in common are consecutive, and the point is
    the vertex they share: edges that are not adjacent do not meet, and
    adjacent edges meet only at their common vertex. *)
Theorem polygon_simple (i j : nat) (ei ej : Edge) (q : R * R) :
  (i < j)%nat ->
  edges points !! i = Some ei -> edges points !! j = Some ej ->
  on_edge ei q -> on_edge ej q ->
  (j = S i /\ q = vertex_R ei.2) \/
  (i = 0%nat /\ j = 15%nat /\ q = vertex_R ei.1).
Proof.
  intros Hij Hi Hj Hqi Hqj.
  destruct (points_simple i j ei ej q Hij Hi Hj Hqi Hqj) as [H | (H0 & Hlast & Hq)].
  - left. exact H.
  - right. cbn in Hlast. split; [exact H0 | ]. split; [lia | exact Hq].
Qed.

(** ** Instances *)

Lemma resample_nearest_size (im : Image) (sz : Z * Z) :
  size (resample_nearest im sz) = sz.
Proof. reflexivity. Qed.



Lemma size_invariant_witness :
  (forall (im : Image) (sz : Z * Z), size (resample_nearest im sz) = sz) /\
  exists (w' : World) (f : list IcoEntry),
    create_icon resample_nearest empty_world = Ok tt w' /\
    files w' !! "logo.ico" = Some f /\
    length f = 6%nat /\
    Forall (fun e => ico_width e = ico_height e
                     /\ size (ico_image e) = (ico_width e, ico_height e)) f /\
    NoDup (map ico_width f) /\
    map ico_width f ≡ₚ [256; 128; 64; 48; 32; 16].
Proof.
  split; [intros im sz; reflexivity | ].
  apply (size_invariant resample_nearest). intros im sz. reflexivity.
Defined.

Lemma polygon_simple_witness :
  (0 < 1)%nat /\
  on_edge ((128, 20), (150, 80)) (150%R, 80%R) /\
  on_edge ((150, 80), (210, 60)) (150%R, 80%R) /\
  ((1%nat = 1%nat /\ (150%R, 80%R) = vertex_R (150, 80)) \/
   (0%nat = 0%nat /\ 1%nat = 15%nat /\ (150%R, 80%R) = vertex_R (128, 20))).
Proof.
  assert (H1 : on_edge ((128, 20), (150, 80)) (150%R, 80%R)).
  { exists 1%R. split; [lra | ]. unfold seg_point. f_equal; lra. }
  assert (H2 : on_edge ((150, 80), (210, 60)) (150%R, 80%R)).
  { exists 0%R. split; [lra | ]. unfold seg_point. f_equal; lra. }
  split; [lia | ]. split; [exact H1 | ]. split; [exact H2 | ].
  apply (polygon_simple 0 1 ((128, 20), (150, 80)) ((150, 80), (210, 60)));
    [lia | reflexivity | reflexivity | exact H1 | exact H2].
Defined.


Lemma mirror_symmetry_witness :
  (150, 80) ∈ points /\ (256 - 150, 80) ∈ points /\
  ((128, 20), (150, 80)) ∈ edges points /\
  ((256 - 150, 80), (256 - 128, 20)) ∈ edges points /\
  (0 <= 150 <= 256 /\ 0 <= 100 < 256) /\
  strictly_inside points (256 - 150, 100) = strictly_inside points (150, 100) /\
  exists (img : ImageRef) (w1 w2 w3 w4 : World) (after : Image),
    run_through resample_nearest empty_world img w1 w2 w3 w4 /\
    heap w2 !! img = Some after /\
    getpixel after (256 - 150, 100) = getpixel after (150, 100).
Proof.
  destruct (mirror_symmetry resample_nearest empty_world)
    as (Hv & He & Hgeo & img & w1 & w2 & w3 & w4 & after & Hrun & Ha & Hpix).
  assert (Hin : (150, 80) ∈ points).
  { apply list_elem_of_In. vm_compute. right. left. reflexivity. }
  assert (Hedge : ((128, 20), (150, 80)) ∈ edges points).
  { apply list_elem_of_In. vm_compute. left. reflexivity. }
  split; [exact Hin | ]. split; [exact (Hv 150 80 Hin) | ].
  split; [exact Hedge | ]. split; [exact (He (128, 20) (150, 80) Hedge) | ].
  split; [lia | ].
  split; [apply (Hgeo 150 100); lia | ].
  exists img, w1, w2, w3, w4, after.
  split; [exact Hrun | ]. split; [exact Ha | ].
  apply (Hpix 150 100); lia.
Defined.

(** * Further properties of the script *)

Lemma raster_in_box :
  forallb (fun j => forallb (pixel_in_box (row_spans points j) j) (seqZ 0 256))
          (seqZ 0 256) = true.
Proof. vm_compute. reflexivity. Qed.

Lemma covered_in_box (x y : Z) :
  0 <= x < 256 -> 0 <= y < 256 ->
  covered points (x, y) = true -> 36 <= x <= 220 /\ 20 <= y <= 240.
Proof.
  intros Hx Hy Hc.
  pose proof (forallb_seqZ _ 0 256 y raster_in_box ltac:(lia)) as Hrow.
  cbv beta in Hrow.
  pose proof (forallb_seqZ _ 0 256 x Hrow ltac:(lia)) as Hpix.
  unfold pixel_in_box in Hpix. unfold covered in Hc. cbn [fst snd] in Hc.
  rewrite Hc in Hpix. cbn [implb] in Hpix.
  apply andb_prop in Hpix as [Hpix H4]. apply andb_prop in Hpix as [Hpix H3].
  apply andb_prop in Hpix as [H1 H2].
  apply Z.leb_le in H1, H2, H3, H4. lia.
Qed.

Section Further.

Variable resample : Image -> Z * Z -> Image.

(** X1 (nothing else is touched).  A run of [create_icon] writes no file
    other than logo.ico, leaves every image that existed before as it was
    and allocates exactly one new image, and adds exactly one line to
    what had been printed. *)
Theorem run_frame (w : World) :
  exists w' : World,
    create_icon resample w = Ok tt w' /\
    (forall path : string,
       path <> "logo.ico" -> files w' !! path = files w !! path) /\
    (forall (r : ImageRef) (im : Image),
       heap w !! r = Some im -> heap w' !! r = Some im) /\
    length (heap w') = S (length (heap w)) /\
    stdout w' = stdout w ++ ["logo.ico created successfully."].
Proof.
  destruct (create_icon_runs resample w) as (_ & _ & _ & _ & Hrun).
  eexists. split; [exact Hrun | ]. cbn [files heap stdout].
  split; [ | split; [ | split]].
  - intros path Hpath. apply lookup_insert_ne. congruence.
  - intros r im Him. apply lookup_app_l_Some. exact Him.
  - rewrite length_app. cbn [length]. lia.
  - reflexivity.
Qed.

(** X3 (what is saved is what was drawn).  The drawing context paints the
    image that is saved: every image embedded in logo.ico is resampled
    from the canvas as it is after the polygon fill, whose centre pixel is
    painted, and not from the blank canvas allocated at the start. *)
Theorem saved_is_drawn (w : World) :
  exists (img : ImageRef) (w1 w2 w3 w4 : World) (canvas : Image)
         (f : list IcoEntry),
    run_through resample w img w1 w2 w3 w4 /\
    heap w2 !! img = Some canvas /\
    heap w1 !! img <> Some canvas /\
    getpixel canvas (128, 128) = Some (217, 78, 65, 255) /\
    files w4 !! "logo.ico" = Some f /\
    Forall (fun e => ico_image e = resample canvas (ico_width e, ico_height e)) f.
Proof.
  eexists _, _, _, _, _, leaf_canvas, _.
  split; [apply create_icon_runs | ]. cbn [heap files].
  assert (Hcentre : getpixel leaf_canvas (128, 128) = Some (217, 78, 65, 255)).
  { rewrite getpixel_leaf by lia.
    rewrite inside_covered by (lia || reflexivity). reflexivity. }
  split; [apply lookup_new_image | ]. split.
  - rewrite lookup_new_image. intros Heq.
    apply (f_equal (fun o : option Image => im ← o; getpixel im (128, 128))) in Heq.
    cbn [mbind option_bind] in Heq.
    rewrite Hcentre, getpixel_blank in Heq by lia. discriminate.
  - split; [exact Hcentre | ]. split; [apply lookup_insert_eq | ].
    unfold ico_entries. cbn [map].
    repeat (constructor; [reflexivity | ]). constructor.
Qed.

(** X4 (transparent margin).  The painted pixels of the canvas all lie in
    columns 36 to 220 and rows 20 to 240, and each of these four bounds is
    reached: the leaf is drawn whole, inside a transparent border. *)
Theorem painted_box (w : World) :
  exists (img : ImageRef) (w1 w2 w3 w4 : World) (after : Image),
    run_through resample w img w1 w2 w3 w4 /\
    heap w2 !! img = Some after /\
    (forall x y : Z,
       getpixel after (x, y) = Some (217, 78, 65, 255) ->
       36 <= x <= 220 /\ 20 <= y <= 240) /\
    getpixel after (36, 160) = Some (217, 78, 65, 255) /\
    getpixel after (220, 160) = Some (217, 78, 65, 255) /\
    getpixel after (128, 20) = Some (217, 78, 65, 255) /\
    getpixel after (96, 240) = Some (217, 78, 65, 255).
Proof.
  run_to_leaf. split.
  - intros x y Hpix.
    destruct (decide (0 <= x < 256 /\ 0 <= y < 256)) as [[Hx Hy] | Hout].
    + rewrite getpixel_leaf in Hpix by assumption.
      destruct (covered points (x, y)) eqn:Hc; [ | discriminate].
      apply covered_in_box; assumption.
    + rewrite getpixel_leaf_outside in Hpix by exact Hout. discriminate.
  - repeat split; rewrite getpixel_leaf by lia; reflexivity.
Qed.

End Further.

Lemma run_frame_witness :
  exists w' : World,
    create_icon resample_nearest used_world = Ok tt w' /\
    "other.ico" <> "logo.ico" /\
    files w' !! "other.ico" = Some [] /\
    heap used_world !! 0%nat = Some (new_raster "RGBA" (2, 2) (1, 2, 3, 4)) /\
    heap w' !! 0%nat = Some (new_raster "RGBA" (2, 2) (1, 2, 3, 4)) /\
    length (heap w') = 2%nat /\
    stdout w' = ["earlier line"; "logo.ico created successfully."].
Proof.
  destruct (run_frame resample_nearest used_world)
    as (w' & Hrun & Hfiles & Hheap & Hlen & Hout).
  assert (Hne : "other.ico" <> "logo.ico") by discriminate.
  exists w'. split; [exact Hrun | ]. split; [exact Hne | ].
  split; [rewrite (Hfiles "other.ico" Hne); apply lookup_singleton_eq | ].
  split; [reflexivity | ].
  split; [apply Hheap; reflexivity | ].
  split; [exact Hlen | exact Hout].
Defined.

Lemma painted_box_witness :
  exists (img : ImageRef) (w1 w2 w3 w4 : World) (after : Image),
    run_through resample_nearest empty_world img w1 w2 w3 w4 /\
    heap w2 !! img = Some after /\
    getpixel after (128, 20) = Some (217, 78, 65, 255) /\
    (36 <= 128 <= 220 /\ 20 <= 20 <= 240).
Proof.
  destruct (painted_box resample_nearest empty_world)
    as (img & w1 & w2 & w3 & w4 & after & Hrun & Ha & Hbox & _ & _ & Htop & _).
  exists img, w1, w2, w3, w4, after.
  split; [exact Hrun | ]. split; [exact Ha | ]. split; [exact Htop | ].
  apply (Hbox 128 20). exact Htop.
Defined.

